(** * Session profitability calculator ([profit_app.py])

    A shallow embedding of [process_detailed_calc], of its inner
    [get_be_rev], and of the three summary lines that follow the call
    ([total_rev], [total_net], [avg_roi]).

    The program is written against pandas; the embedding keeps its shape:
    a DataFrame is a mutable object on a heap, columns are read with
    [getitem] and written with [setitem], column arithmetic is
    element-wise, and [apply(..., axis=1)] walks the rows. *)

From Stdlib Require Import QArith Qcanon.
From stdpp Require Import gmap strings list fin_maps numbers.

Close Scope Qc_scope.
Close Scope Q_scope.
Open Scope string_scope.

(** ** Numbers

    A pandas numeric cell is an IEEE binary64 value.  The embedding keeps
    the three special values, which is where the program's edge cases
    live, and takes every finite value as an exact rational: rounding,
    overflow and the sign of zero are abstracted away (a zero divisor
    counts as [+0.0]). *)

Inductive float : Type :=
  | Fin (q : Qc)
  | PInf
  | NInf
  | NaN.

Definition fzero : float := Fin 0%Qc.
Definition of_Z (z : Z) : float := Fin (Qc_of_Z z).
Definition of_nat (n : nat) : float := of_Z (Z.of_nat n).

Definition Qc_pos (q : Qc) : bool := bool_decide (0 < q)%Qc.
Definition Qc_neg (q : Qc) : bool := bool_decide (q < 0)%Qc.
Definition Qc_is0 (q : Qc) : bool := bool_decide (q = 0%Qc).

Definition fneg (x : float) : float :=
  match x with
  | Fin q => Fin (- q)%Qc
  | PInf => NInf
  | NInf => PInf
  | NaN => NaN
  end.

Definition fadd (x y : float) : float :=
  match x, y with
  | NaN, _ | _, NaN => NaN
  | Fin a, Fin b => Fin (a + b)%Qc
  | PInf, NInf | NInf, PInf => NaN
  | PInf, _ | _, PInf => PInf
  | NInf, _ | _, NInf => NInf
  end.

Definition fsub (x y : float) : float := fadd x (fneg y).

(** [inf * 0] is NaN; otherwise an infinity keeps or flips its sign. *)
Definition inf_times (pos : bool) (q : Qc) : float :=
  if Qc_is0 q then NaN
  else if Qc_pos q then (if pos then PInf else NInf)
  else (if pos then NInf else PInf).

Definition fmul (x y : float) : float :=
  match x, y with
  | NaN, _ | _, NaN => NaN
  | Fin a, Fin b => Fin (a * b)%Qc
  | PInf, Fin q | Fin q, PInf => inf_times true q
  | NInf, Fin q | Fin q, NInf => inf_times false q
  | PInf, PInf | NInf, NInf => PInf
  | PInf, NInf | NInf, PInf => NInf
  end.

(** numpy division: [0/0] is NaN, [x/0] is an infinity with the sign of
    [x], a finite value over an infinity is 0, and nothing raises. *)
Definition fdiv (x y : float) : float :=
  match x, y with
  | NaN, _ | _, NaN => NaN
  | Fin a, Fin b =>
      if Qc_is0 b then
        (if Qc_is0 a then NaN else if Qc_pos a then PInf else NInf)
      else Fin (a / b)%Qc
  | Fin _, (PInf | NInf) => fzero
  | PInf, Fin b => if Qc_neg b then NInf else PInf
  | NInf, Fin b => if Qc_neg b then PInf else NInf
  | (PInf | NInf), (PInf | NInf) => NaN
  end.

(** [x > 0] (false on NaN). *)
Definition fgt0 (x : float) : bool :=
  match x with
  | Fin q => Qc_pos q
  | PInf => true
  | NInf | NaN => false
  end.

Definition is_nan (x : float) : bool :=
  match x with NaN => true | _ => false end.

Definition is_finite (x : float) : bool :=
  match x with Fin _ => true | _ => false end.

Declare Scope float_scope.
Delimit Scope float_scope with F.
Bind Scope float_scope with float.
Infix "+" := fadd : float_scope.
Infix "-" := fsub : float_scope.
Infix "*" := fmul : float_scope.
Infix "/" := fdiv : float_scope.
Notation "- x" := (fneg x) : float_scope.

(** ** Cells and Series *)

(** What a DataFrame cell can hold: a number, text, or nothing. *)
Inductive cell : Type :=
  | Num (x : float)
  | Str (s : string)
  | CNone.

(** The exceptions the modelled operations can raise.  [Dangling] stands
    for a location that holds no object; Python cannot produce it, since a
    name keeps its object alive. *)
Inductive exn : Type :=
  | KeyError (key : string)
  | TypeError
  | ValueError
  | Dangling.

Inductive outcome (A : Type) : Type :=
  | Ok (a : A)
  | Raise (e : exn).
Arguments Ok {A} a.
Arguments Raise {A} e.

Definition obind {A B} (o : outcome A) (f : A → outcome B) : outcome B :=
  match o with
  | Ok a => f a
  | Raise e => Raise e
  end.

#[global] Instance outcome_ret : MRet outcome := λ A a, Ok a.
#[global] Instance outcome_bind : MBind outcome := λ A B f o, obind o f.

(** A cell used as an operand of float arithmetic. *)
Definition as_float (c : cell) : outcome float :=
  match c with
  | Num x => Ok x
  | Str _ | CNone => Raise TypeError
  end.

Fixpoint traverse {A B} (f : A → outcome B) (l : list A) : outcome (list B) :=
  match l with
  | [] => Ok []
  | a :: l => b ← f a; bs ← traverse f l; Ok (b :: bs)
  end.

(** Element-wise arithmetic of two Series that share their frame's index. *)
Definition cell_op (op : float → float → float) (c d : cell) : outcome cell :=
  x ← as_float c; y ← as_float d; Ok (Num (op x y)).

Definition series_op (op : float → float → float) (s t : list cell)
  : outcome (list cell) :=
  traverse (λ cd, cell_op op cd.1 cd.2) (zip s t).

(** scalar [op] Series, and Series [op] scalar. *)
Definition scalar_series_op (op : float → float → float) (x : float)
  (s : list cell) : outcome (list cell) :=
  traverse (cell_op op (Num x)) s.

Definition series_scalar_op (op : float → float → float) (s : list cell)
  (x : float) : outcome (list cell) :=
  traverse (λ c, cell_op op c (Num x)) s.

(** [Series.fillna(0)]: NaN and None become 0. *)
Definition isna (c : cell) : bool :=
  match c with
  | Num x => is_nan x
  | CNone => true
  | Str _ => false
  end.

Definition fillna0 (s : list cell) : list cell :=
  (λ c, if isna c then Num fzero else c) <$> s.

(** [Series.sum()] and [Series.mean()] with pandas' default [skipna=True]:
    NaN entries are left out; the sum of nothing is 0, the mean of nothing
    is NaN. *)
Definition floats_of (s : list cell) : outcome (list float) :=
  traverse as_float s.

Definition fsum (xs : list float) : float := foldl fadd fzero xs.

Definition nansum (xs : list float) : float :=
  fsum (filter (λ x, is_nan x = false) xs).

Definition nanmean (xs : list float) : float :=
  let ys := filter (λ x, is_nan x = false) xs in
  match ys with
  | [] => NaN
  | _ => (fsum ys / of_nat (length ys))%F
  end.

Definition series_sum (s : list cell) : outcome float :=
  xs ← floats_of s; Ok (nansum xs).

Definition series_mean (s : list cell) : outcome float :=
  xs ← floats_of s; Ok (nanmean xs).

(** ** DataFrames on a heap *)

(** A DataFrame: its index (the rows are numbered [0 .. nrows-1]) and its
    columns by label.  Python names hold references, so frames live on a
    heap and [df], [calc_df], [result_df] are locations. *)
Record frame : Type := Frame {
  nrows : nat;
  columns : gmap string (list cell)
}.

Abbreviation loc := positive.
Abbreviation heap := (gmap positive frame).

(** A computation may read and write the heap and may raise; the heap it
    leaves behind is kept also when it raises. *)
Definition py (A : Type) : Type := heap → outcome A * heap.

Definition py_ret {A} (a : A) : py A := λ h, (Ok a, h).

Definition py_bind {A B} (m : py A) (f : A → py B) : py B :=
  λ h, match m h with
       | (Ok a, h') => f a h'
       | (Raise e, h') => (Raise e, h')
       end.

#[global] Instance py_mret : MRet py := @py_ret.
#[global] Instance py_mbind : MBind py := λ A B f m, py_bind m f.

Definition lift {A} (o : outcome A) : py A := λ h, (o, h).

Fixpoint for_each {A} (xs : list A) (body : A → py unit) : py unit :=
  match xs with
  | [] => mret ()
  | x :: xs => body x ;; for_each xs body
  end.

(** [df.copy()]: a new object with the same contents. *)
Definition copy (df : loc) : py loc :=
  λ h, match h !! df with
       | Some fr => let l := fresh (dom h) in (Ok l, <[l := fr]> h)
       | None => (Raise Dangling, h)
       end.

(** [df[col]] *)
Definition getitem (df : loc) (col : string) : py (list cell) :=
  λ h, match h !! df with
       | Some fr =>
           match columns fr !! col with
           | Some s => (Ok s, h)
           | None => (Raise (KeyError col), h)
           end
       | None => (Raise Dangling, h)
       end.

(** [df[col] = s]: replaces the column or adds it; the Series must fit the
    index. *)
Definition setitem (df : loc) (col : string) (s : list cell) : py unit :=
  λ h, match h !! df with
       | Some fr =>
           if decide (length s = nrows fr)
           then (Ok (), <[df := Frame (nrows fr) (<[col := s]> (columns fr))]> h)
           else (Raise ValueError, h)
       | None => (Raise Dangling, h)
       end.

(** The row Series that [apply(..., axis=1)] hands to its function. *)
Definition row_at (fr : frame) (i : nat) : string → option cell :=
  λ col, s ← columns fr !! col; s !! i.

Definition row_get (row : string → option cell) (col : string) : outcome cell :=
  match row col with
  | Some c => Ok c
  | None => Raise (KeyError col)
  end.

(** [df.apply(f, axis=1)] with [f] returning a scalar: the Series of the
    results, one per row (the empty Series on a table without rows). *)
Definition apply_axis1 (f : (string → option cell) → outcome cell) (df : loc)
  : py (list cell) :=
  λ h, match h !! df with
       | Some fr => (traverse (λ i, f (row_at fr i)) (seq 0 (nrows fr)), h)
       | None => (Raise Dangling, h)
       end.

(** ** Sessions and their derived fields *)

(** The seven numeric fields of one session. *)
Record session : Type := Session {
  revenue : float;
  margin : float;
  rent : float;
  staffing : float;
  utilities : float;
  ads : float;
  commission : float
}.

(** The six derived fields of one session. *)
Record metrics : Type := Metrics {
  gross_profit : float;
  variable_cost : float;
  fixed_cost_total : float;
  net_profit : float;
  breakeven_revenue : float;
  roi_percent : float
}.

(** ** The table the script starts from

    [st.session_state.df_special] and the default rates (5% tax, no
    packaging), used below as a concrete input. *)

Definition dec (n : Z) (d : positive) : float := Fin (Q2Qc (n # d)).

Definition df_special : frame :=
  Frame 2 (list_to_map [
    ("場次名稱", [Str "台北 A 場"; Str "台中 B 場"]);
    ("預估營業額", [Num (of_Z 600000); Num (of_Z 400000)]);
    ("商品毛利率", [Num (dec 35 100); Num (dec 40 100)]);
    ("場地租金", [Num (of_Z 120000); Num (of_Z 60000)]);
    ("現場人事", [Num (of_Z 45000); Num (of_Z 30000)]);
    ("水電物流", [Num (of_Z 5000); Num (of_Z 3000)]);
    ("該場廣告費", [Num (of_Z 20000); Num (of_Z 10000)]);
    ("場地抽成率", [Num (dec 5 100); Num (dec 0 100)]) ]).

Definition default_tax_rate : float := dec 5 100.
Definition default_pkg_rate : float := dec 0 100.

(** A table of [rows] given row by row, the way [pd.DataFrame([...])]
    takes it: one cell per numeric column, in the order of
    [numeric_cols]. *)
Definition table_of (names : list string) (rows : list (list cell)) : frame :=
  let col k := (λ r, default CNone (r !! k)) <$> rows in
  Frame (length rows) (list_to_map [
    ("場次名稱", Str <$> names);
    ("預估營業額", col 0%nat);
    ("商品毛利率", col 1%nat);
    ("場地租金", col 2%nat);
    ("現場人事", col 3%nat);
    ("水電物流", col 4%nat);
    ("該場廣告費", col 5%nat);
    ("場地抽成率", col 6%nat) ]).

(** A stand-in for pandas' text reader that reads no text as a number;
    the only text in a numeric column of the tables below is ["n/a"]. *)
Definition no_text : string → option float := λ _, None.

(** An edited table with no sessions left. *)
Definition empty_table : frame := table_of [] [].

(** One session that sells at a 100% margin and has no costs at all, with
    both global rates set to 0. *)
Definition zero_cost_table : frame :=
  table_of ["寄售"]
    [[Num (of_Z 100); Num (of_Z 1); Num (of_Z 0); Num (of_Z 0);
      Num (of_Z 0); Num (of_Z 0); Num (of_Z 0)]].

Definition zero_rate : float := of_Z 0.

(** The starting table after the user adds a row and fills in everything
    but the revenue, which stays blank. *)
Definition blank_revenue_table : frame :=
  table_of ["台北 A 場"; "高雄 C 場"]
    [[Num (of_Z 600000); Num (dec 35 100); Num (of_Z 120000);
      Num (of_Z 45000); Num (of_Z 5000); Num (of_Z 20000); Num (dec 5 100)];
     [CNone; Num (dec 30 100); Num (of_Z 80000);
      Num (of_Z 20000); Num (of_Z 2000); Str "n/a"; Num (dec 2 100)]].

(** The heaps the examples run in: the table sits at location 1. *)
Definition heap_of (fr : frame) : gmap positive frame := {[ 1%positive := fr ]}.

(** First row of [df_special] (台北 A 場), as numbers. *)
Definition taipei_a : session :=
  Session (of_Z 600000) (dec 35 100) (of_Z 120000) (of_Z 45000) (of_Z 5000)
          (of_Z 20000) (dec 5 100).


(** The row of [zero_cost_table]. *)
Definition consignment : session :=
  Session (of_Z 100) (of_Z 1) (of_Z 0) (of_Z 0) (of_Z 0) (of_Z 0) (of_Z 0).

(** The starting table with two of its numeric columns dropped. *)
Definition two_columns_short : frame :=
  Frame 2 (delete "水電物流" (delete "場地抽成率" (columns df_special))).



(** The row the editor adds, after coercion. *)
Definition blank_session : session :=
  Session fzero fzero fzero fzero fzero fzero fzero.


(** ** The calculator *)

Section Calculator.

(** pandas' own reading of text as a number (inside [pd.to_numeric]) is
    not part of the repository. *)
Variable str_to_float : string → option float.

(** The two module-level rates, [st.number_input(...) / 100]. *)
Variable global_tax_rate : float.
Variable global_pkg_rate : float.

(** [pd.to_numeric(s, errors='coerce')]: what does not read as a number
    becomes NaN. *)
Definition to_numeric_cell (c : cell) : cell :=
  match c with
  | Num x => Num x
  | Str s => Num (default NaN (str_to_float s))
  | CNone => Num NaN
  end.

Definition to_numeric (s : list cell) : list cell := to_numeric_cell <$> s.

Definition numeric_cols : list string :=
  [ "預估營業額"; "商品毛利率"; "場地租金";
    "現場人事"; "水電物流"; "該場廣告費"; "場地抽成率" ].

Definition get_be_rev (row : string → option cell) : outcome cell :=
  m ← row_get row "商品毛利率";
  c ← row_get row "場地抽成率";
  c ← as_float c;
  m ← as_float m;
  let denom := (m - (global_tax_rate + global_pkg_rate + c))%F in
  if fgt0 denom then
    f ← row_get row "固定開銷合計";
    f ← as_float f;
    Ok (Num (f / denom))
  else Ok (Num fzero).

Definition process_detailed_calc (df : loc) : py loc :=
  calc_df ← copy df;
  for_each numeric_cols (λ col,
    s ← getitem calc_df col;
    setitem calc_df col (fillna0 (to_numeric s)));;
  (* A *)
  rev ← getitem calc_df "預估營業額";
  mrg ← getitem calc_df "商品毛利率";
  gross ← lift (series_op fmul rev mrg);
  setitem calc_df "毛利總額" gross;;
  (* B *)
  rev ← getitem calc_df "預估營業額";
  com ← getitem calc_df "場地抽成率";
  rate ← lift (scalar_series_op fadd (global_tax_rate + global_pkg_rate) com);
  var ← lift (series_op fmul rev rate);
  setitem calc_df "變動成本" var;;
  (* C *)
  rent ← getitem calc_df "場地租金";
  staff ← getitem calc_df "現場人事";
  s1 ← lift (series_op fadd rent staff);
  util ← getitem calc_df "水電物流";
  s2 ← lift (series_op fadd s1 util);
  ads ← getitem calc_df "該場廣告費";
  fixed ← lift (series_op fadd s2 ads);
  setitem calc_df "固定開銷合計" fixed;;
  (* D *)
  gross ← getitem calc_df "毛利總額";
  var ← getitem calc_df "變動成本";
  d1 ← lift (series_op fsub gross var);
  fixed ← getitem calc_df "固定開銷合計";
  net ← lift (series_op fsub d1 fixed);
  setitem calc_df "預估淨利" net;;
  (* E *)
  be ← apply_axis1 get_be_rev calc_df;
  setitem calc_df "打平所需營收" be;;
  (* F *)
  rev ← getitem calc_df "預估營業額";
  gross ← getitem calc_df "毛利總額";
  c1 ← lift (series_op fsub rev gross);
  var ← getitem calc_df "變動成本";
  c2 ← lift (series_op fadd c1 var);
  fixed ← getitem calc_df "固定開銷合計";
  total_cost ← lift (series_op fadd c2 fixed);
  net ← getitem calc_df "預估淨利";
  q ← lift (series_op fdiv net total_cost);
  pct ← lift (series_scalar_op fmul q (of_Z 100));
  setitem calc_df "投報率 ROI (%)" (fillna0 pct);;
  mret calc_df.

(** The three summary figures computed right after the call. *)
Record summary : Type := Summary {
  total_rev : float;
  total_net : float;
  avg_roi : float
}.

Definition summarize (result_df : loc) : py summary :=
  rev ← getitem result_df "預估營業額";
  total_rev ← lift (series_sum rev);
  net ← getitem result_df "預估淨利";
  total_net ← lift (series_sum net);
  roi ← getitem result_df "投報率 ROI (%)";
  avg_roi ← lift (series_mean roi);
  mret (Summary total_rev total_net avg_roi).

(** One pass of the script over the edited table. *)
Definition run (edited_df : loc) : py (loc * summary) :=
  result_df ← process_detailed_calc edited_df;
  s ← summarize result_df;
  mret (result_df, s).


(** ** Reading rows of a table *)

(** Line 71 on one cell: [pd.to_numeric(..., errors='coerce').fillna(0)]. *)
Definition coerce_cell (c : cell) : cell :=
  let c' := to_numeric_cell c in if isna c' then Num fzero else c'.

Definition number (c : cell) : option float :=
  match c with Num x => Some x | _ => None end.

Definition coerce (c : cell) : float := default fzero (number (coerce_cell c)).

(** The cell cannot be read as a number. *)
Definition non_numeric (c : cell) : bool := isna (to_numeric_cell c).

Definition cell_at (fr : frame) (col : string) (i : nat) : option cell :=
  s ← columns fr !! col; s !! i.

(** Row [i] of a table through a reading [rd] of its cells. *)
Definition read_session (rd : cell → option float) (fr : frame) (i : nat)
  : option session :=
  a ← cell_at fr "預估營業額" i ≫= rd;
  b ← cell_at fr "商品毛利率" i ≫= rd;
  c ← cell_at fr "場地租金" i ≫= rd;
  d ← cell_at fr "現場人事" i ≫= rd;
  e ← cell_at fr "水電物流" i ≫= rd;
  f ← cell_at fr "該場廣告費" i ≫= rd;
  g ← cell_at fr "場地抽成率" i ≫= rd;
  Some (Session a b c d e f g).

(** Row [i] of the input, its cells taken after coercion. *)
Definition session_at (fr : frame) (i : nat) : option session :=
  read_session (λ c, Some (coerce c)) fr i.

(** Row [i] of the output: the numbers the cells hold. *)
Definition stored_session_at (fr : frame) (i : nat) : option session :=
  read_session number fr i.

Definition metrics_at (fr : frame) (i : nat) : option metrics :=
  a ← cell_at fr "毛利總額" i ≫= number;
  b ← cell_at fr "變動成本" i ≫= number;
  c ← cell_at fr "固定開銷合計" i ≫= number;
  d ← cell_at fr "預估淨利" i ≫= number;
  e ← cell_at fr "打平所需營收" i ≫= number;
  f ← cell_at fr "投報率 ROI (%)" i ≫= number;
  Some (Metrics a b c d e f).

(** The frame [process_detailed_calc] returns, if it returns. *)
Definition result_frame (df : loc) (h : heap) : option frame :=
  match process_detailed_calc df h with
  | (Ok l, h') => h' !! l
  | (Raise _, _) => None
  end.

(** The derived fields the calculator computes for row [i]. *)
Definition calc_metrics (df : loc) (i : nat) (h : heap) : option metrics :=
  fr' ← result_frame df h; metrics_at fr' i.

(** The table has the seven numeric columns, each as long as the index. *)
Definition session_table (fr : frame) : bool :=
  forallb (λ col, match columns fr !! col with
                  | Some s => bool_decide (length s = nrows fr)
                  | None => false
                  end) numeric_cols.

(** [total_cost] of line 100, from a row's inputs and derived fields. *)
Definition total_cost (x : session) (y : metrics) : float :=
  (revenue x - gross_profit y + variable_cost y + fixed_cost_total y)%F.


Definition finite_session (x : session) : bool :=
  is_finite (revenue x) && is_finite (margin x) && is_finite (rent x) &&
  is_finite (staffing x) && is_finite (utilities x) && is_finite (ads x) &&
  is_finite (commission x).



(** What a caller can see of one pass: the returned table and the
    summary, or the exception. *)
Definition observe (r : outcome (loc * summary) * heap)
  : outcome (option frame * summary) :=
  match r with
  | (Ok (l, s), h') => Ok (h' !! l, s)
  | (Raise e, _) => Raise e
  end.

(** ** The same computation, row by row *)

Definition nan_to_zero (x : float) : float := if is_nan x then fzero else x.

Definition be_rev (m c f : float) : float :=
  let denom := (m - (global_tax_rate + global_pkg_rate + c))%F in
  if fgt0 denom then (f / denom)%F else fzero.

Definition calc_row (x : session) : metrics :=
  let gross := (revenue x * margin x)%F in
  let var := (revenue x * (global_tax_rate + global_pkg_rate + commission x))%F in
  let fixed := (rent x + staffing x + utilities x + ads x)%F in
  let net := (gross - var - fixed)%F in
  let be := be_rev (margin x) (commission x) fixed in
  let tc := (revenue x - gross + var + fixed)%F in
  let roi := nan_to_zero (net / tc * of_Z 100)%F in
  Metrics gross var fixed net be roi.

(** The coerced rows of a table, in index order. *)
Definition coerced_at (fr : frame) (col : string) (i : nat) : float :=
  coerce (default CNone (cell_at fr col i)).

Definition sessions (fr : frame) : list session :=
  (λ i, Session (coerced_at fr "預估營業額" i) (coerced_at fr "商品毛利率" i)
                (coerced_at fr "場地租金" i) (coerced_at fr "現場人事" i)
                (coerced_at fr "水電物流" i) (coerced_at fr "該場廣告費" i)
                (coerced_at fr "場地抽成率" i)) <$> seq 0 (nrows fr).

(** A float column computed row by row. *)
Definition numcol {A} (f : A → float) (rows : list A) : list cell :=
  (λ x, Num (f x)) <$> rows.
#[global] Arguments numcol : simpl never.

(** The table [process_detailed_calc] builds from [fr], column by column. *)
Definition enrich (fr : frame) : frame :=
  let rows := sessions fr in
  let put col (f : session → float) := <[col := numcol f rows]> in
  Frame (nrows fr)
    (put "投報率 ROI (%)" (λ x, roi_percent (calc_row x))
    (put "打平所需營收" (λ x, breakeven_revenue (calc_row x))
    (put "預估淨利" (λ x, net_profit (calc_row x))
    (put "固定開銷合計" (λ x, fixed_cost_total (calc_row x))
    (put "變動成本" (λ x, variable_cost (calc_row x))
    (put "毛利總額" (λ x, gross_profit (calc_row x))
    (put "場地抽成率" commission
    (put "該場廣告費" ads
    (put "水電物流" utilities
    (put "現場人事" staffing
    (put "場地租金" rent
    (put "商品毛利率" margin
    (put "預估營業額" revenue (columns fr)))))))))))))).

Definition summary_of (fr : frame) : summary :=
  let rows := sessions fr in
  Summary (nansum (revenue <$> rows))
          (nansum ((λ x, net_profit (calc_row x)) <$> rows))
          (nanmean ((λ x, roi_percent (calc_row x)) <$> rows)).




(** ** Further notions about tables and numbers *)

(** The six columns the calculator adds. *)
Definition derived_cols : list string :=
  [ "毛利總額"; "變動成本"; "固定開銷合計"; "預估淨利"; "打平所需營收";
    "投報率 ROI (%)" ].

(** Every column of the table is as long as its index. *)
Definition valid_frame (fr : frame) : bool :=
  forallb (λ p, bool_decide (length p.2 = nrows fr)) (map_to_list (columns fr)).

(** The first of [numeric_cols], in the order of the loop of line 70, that
    the table lacks. *)
Definition first_missing (fr : frame) : option string :=
  find (λ col, bool_decide (columns fr !! col = None)) numeric_cols.

(** Row [i] holds no number in any of its seven numeric cells, as a row
    the editor has just added. *)
Definition blank_at (fr : frame) (i : nat) : bool :=
  forallb (λ col, match cell_at fr col i with
                  | Some c => non_numeric c
                  | None => false
                  end) numeric_cols.

(** The table after the editor adds a row: one more index entry, and
    [None] in every column. *)
Definition append_blank (fr : frame) : frame :=
  Frame (S (nrows fr)) ((λ s, (s ++ [CNone])%list) <$> columns fr).



(** [m] can return nothing but [a]. *)
Definition returns_only {A} (a : A) (m : py A) : Prop :=
  ∀ (h h' : heap) (v : A), m h = (Ok v, h') → v = a.

(** None of the seven fields is NaN. *)
Definition nan_free (x : session) : bool :=
  negb (is_nan (revenue x)) && negb (is_nan (margin x)) &&
  negb (is_nan (rent x)) && negb (is_nan (staffing x)) &&
  negb (is_nan (utilities x)) && negb (is_nan (ads x)) &&
  negb (is_nan (commission x)).


(** ** Two properties of computations *)

(** [m] writes no object other than [l]. *)
Definition writes_only {A} (l : loc) (m : py A) : Prop :=
  ∀ (h : heap) (l' : loc), l' ≠ l → (m h).2 !! l' = h !! l'.

(** [m1] on the object at [l1] and [m2] on the object at [l2] behave
    alike whenever the two objects hold the same contents: same exception
    or results related by [R], and the two objects still hold the same. *)
Definition alike {A} (l1 l2 : loc) (R : A → A → Prop) (m1 m2 : py A) : Prop :=
  ∀ h1 h2 : heap, h1 !! l1 = h2 !! l2 →
    match m1 h1, m2 h2 with
    | (Ok a1, h1'), (Ok a2, h2') => R a1 a2 ∧ h1' !! l1 = h2' !! l2
    | (Raise e1, h1'), (Raise e2, h2') => e1 = e2 ∧ h1' !! l1 = h2' !! l2
    | _, _ => False
    end.

(** ** Series arithmetic on float columns *)

Lemma traverse_Ok {A B} (f : A → outcome B) (g : A → B) (l : list A) :
  (∀ a, a ∈ l → f a = Ok (g a)) → traverse f l = Ok (g <$> l).
Proof.
  induction l as [|a l IH]; intros Hf; [done|].
  cbn [traverse]. rewrite Hf by left.
  rewrite IH; [done|]. intros b Hb. apply Hf. by right.
Qed.

Lemma length_numcol {A} (f : A → float) (rows : list A) :
  length (numcol f rows) = length rows.
Proof. unfold numcol. by rewrite length_fmap. Qed.

Lemma series_op_numcol {A} op (f g : A → float) (rows : list A) :
  series_op op (numcol f rows) (numcol g rows)
  = Ok (numcol (λ x, op (f x) (g x)) rows).
Proof.
  unfold series_op, numcol.
  induction rows as [|x rows IH]; [done|].
  cbn [fmap list_fmap zip zip_with traverse]. cbn in IH. by rewrite IH.
Qed.

Lemma scalar_series_op_numcol {A} op a (f : A → float) (rows : list A) :
  scalar_series_op op a (numcol f rows) = Ok (numcol (λ x, op a (f x)) rows).
Proof.
  unfold scalar_series_op, numcol.
  induction rows as [|x rows IH]; [done|].
  cbn [fmap list_fmap traverse]. cbn in IH. by rewrite IH.
Qed.

Lemma series_scalar_op_numcol {A} op a (f : A → float) (rows : list A) :
  series_scalar_op op (numcol f rows) a = Ok (numcol (λ x, op (f x) a) rows).
Proof.
  unfold series_scalar_op, numcol.
  induction rows as [|x rows IH]; [done|].
  cbn [fmap list_fmap traverse]. cbn in IH. by rewrite IH.
Qed.

Lemma fillna0_numcol {A} (f : A → float) (rows : list A) :
  fillna0 (numcol f rows) = numcol (λ x, nan_to_zero (f x)) rows.
Proof.
  unfold fillna0, numcol. rewrite <- list_fmap_compose.
  apply list_fmap_ext. intros _ x _. unfold nan_to_zero. simpl.
  by destruct (is_nan (f x)).
Qed.

Lemma floats_of_numcol {A} (f : A → float) (rows : list A) :
  floats_of (numcol f rows) = Ok (f <$> rows).
Proof.
  unfold floats_of, numcol.
  induction rows as [|x rows IH]; [done|].
  cbn [fmap list_fmap traverse]. cbn in IH. by rewrite IH.
Qed.

Lemma coerce_cell_Num (c : cell) : coerce_cell c = Num (coerce c).
Proof.
  unfold coerce, coerce_cell.
  destruct c as [x|s|]; simpl; [by destruct (is_nan x)| |done].
  by destruct (is_nan (default NaN (str_to_float s))).
Qed.

Lemma fillna0_to_numeric (s : list cell) :
  fillna0 (to_numeric s) = numcol coerce s.
Proof.
  unfold fillna0, to_numeric, numcol. rewrite <- list_fmap_compose.
  apply list_fmap_ext. intros _ c _. apply coerce_cell_Num.
Qed.

(** ** Tables *)

Lemma session_table_col (fr : frame) (col : string) :
  session_table fr = true → col ∈ numeric_cols →
  ∃ s, columns fr !! col = Some s ∧ length s = nrows fr.
Proof.
  unfold session_table. rewrite forallb_forall. intros Hall Hcol.
  specialize (Hall col). rewrite <- list_elem_of_In in Hall.
  specialize (Hall Hcol).
  destruct (columns fr !! col) as [s|]; [|done].
  exists s. split; [done|]. by apply bool_decide_eq_true in Hall.
Qed.

Lemma length_sessions (fr : frame) : length (sessions fr) = nrows fr.
Proof. unfold sessions. by rewrite length_fmap, length_seq. Qed.

Lemma numcol_coerce_seq (fr : frame) (col : string) (s : list cell) :
  columns fr !! col = Some s → length s = nrows fr →
  numcol coerce s = numcol (coerced_at fr col) (seq 0 (nrows fr)).
Proof.
  intros Hs Hlen. unfold numcol. apply list_eq. intros i.
  rewrite !list_lookup_fmap.
  destruct (decide (i < nrows fr)) as [Hi|Hi].
  - rewrite lookup_seq_lt by done.
    destruct (lookup_lt_is_Some_2 s i) as [c Hc]; [lia|].
    rewrite Hc. simpl. unfold coerced_at, cell_at. rewrite Hs. simpl.
    by rewrite Hc.
  - rewrite lookup_seq_ge by lia. by rewrite lookup_ge_None_2 by lia.
Qed.

(** Under [session_table], [sessions] lists exactly the rows that
    [session_at] reads. *)
Lemma sessions_lookup (fr : frame) (i : nat) :
  session_table fr = true → sessions fr !! i = session_at fr i.
Proof.
  intros Htab.
  assert (∀ col, col ∈ numeric_cols →
            cell_at fr col i ≫= (λ c, Some (coerce c))
            = if decide (i < nrows fr) then Some (coerced_at fr col i) else None)
    as Hcol.
  { intros col Hin.
    destruct (session_table_col fr col Htab Hin) as (s & Hs & Hlen).
    unfold coerced_at, cell_at. rewrite Hs. simpl.
    case_decide.
    - destruct (lookup_lt_is_Some_2 s i) as [c Hc]; [lia|]. by rewrite Hc.
    - by rewrite lookup_ge_None_2 by lia. }
  unfold session_at, read_session, sessions.
  rewrite list_lookup_fmap.
  rewrite !Hcol by (unfold numeric_cols; set_solver).
  case_decide.
  - by rewrite lookup_seq_lt by done.
  - by rewrite lookup_seq_ge by lia.
Qed.

Lemma session_at_lt (fr : frame) (i : nat) (x : session) :
  session_table fr = true → session_at fr i = Some x → i < nrows fr.
Proof.
  intros Htab Hx. rewrite <- sessions_lookup in Hx by done.
  apply lookup_lt_Some in Hx. by rewrite length_sessions in Hx.
Qed.

Lemma session_at_is_Some (fr : frame) (i : nat) :
  session_table fr = true → i < nrows fr → is_Some (session_at fr i).
Proof.
  intros Htab Hi. rewrite <- sessions_lookup by done.
  apply lookup_lt_is_Some_2. by rewrite length_sessions.
Qed.

Lemma numcol_sessions (fr : frame) (col : string) (proj : session → float) :
  session_table fr = true → col ∈ numeric_cols →
  (∀ i, proj (Session (coerced_at fr "預估營業額" i) (coerced_at fr "商品毛利率" i)
                (coerced_at fr "場地租金" i) (coerced_at fr "現場人事" i)
                (coerced_at fr "水電物流" i) (coerced_at fr "該場廣告費" i)
                (coerced_at fr "場地抽成率" i)) = coerced_at fr col i) →
  ∃ s, columns fr !! col = Some s ∧ length s = nrows fr
       ∧ fillna0 (to_numeric s) = numcol proj (sessions fr).
Proof.
  intros Htab Hin Hproj.
  destruct (session_table_col fr col Htab Hin) as (s & Hs & Hlen).
  exists s. split_and!; [done..|].
  rewrite fillna0_to_numeric, (numcol_coerce_seq fr col s Hs Hlen).
  unfold sessions, numcol. rewrite <- list_fmap_compose.
  apply list_fmap_ext. intros _ i _. simpl. by rewrite Hproj.
Qed.

(** ** Running the calculator, step by step *)

Lemma run_bind {A B} (m : py A) (f : A → py B) (h h' : heap) (a : A) :
  m h = (Ok a, h') → (m ≫= f) h = f a h'.
Proof. intros Hm. unfold mbind, py_mbind, py_bind. by rewrite Hm. Qed.

Lemma run_copy (df : loc) (fr : frame) (h : heap) :
  h !! df = Some fr → copy df h = (Ok (fresh (dom h)), <[fresh (dom h) := fr]> h).
Proof. intros Hdf. unfold copy. by rewrite Hdf. Qed.

Lemma run_getitem (l : loc) n cols (h : heap) (col : string) (s : list cell) :
  cols !! col = Some s →
  getitem l col (<[l := Frame n cols]> h) = (Ok s, <[l := Frame n cols]> h).
Proof. intros Hs. unfold getitem. rewrite lookup_insert_eq. simpl. by rewrite Hs. Qed.

Lemma run_setitem (l : loc) n cols (h : heap) (col : string) (s : list cell) :
  length s = n →
  setitem l col s (<[l := Frame n cols]> h)
  = (Ok (), <[l := Frame n (<[col := s]> cols)]> h).
Proof.
  intros Hlen. unfold setitem. rewrite lookup_insert_eq. simpl.
  rewrite decide_True by done. by rewrite insert_insert_eq.
Qed.

Lemma run_coerce_col (l : loc) n cols (h : heap) (col : string) (s : list cell) :
  cols !! col = Some s → length s = n →
  (s ← getitem l col; setitem l col (fillna0 (to_numeric s)))
    (<[l := Frame n cols]> h)
  = (Ok (), <[l := Frame n (<[col := fillna0 (to_numeric s)]> cols)]> h).
Proof.
  intros Hs Hlen. erewrite run_bind; [| by apply run_getitem ].
  apply run_setitem. by rewrite fillna0_to_numeric, length_numcol.
Qed.

Lemma run_apply_axis1 (l : loc) n cols (h : heap) f (g : session → float)
    (rows : list session) :
  length rows = n →
  (∀ i x, rows !! i = Some x → f (row_at (Frame n cols) i) = Ok (Num (g x))) →
  apply_axis1 f l (<[l := Frame n cols]> h) = (Ok (numcol g rows), <[l := Frame n cols]> h).
Proof.
  intros Hlen Hf. unfold apply_axis1. rewrite lookup_insert_eq. simpl.
  f_equal. subst n. clear h l.
  rewrite (traverse_Ok _ (λ i, Num (g (default (Session NaN NaN NaN NaN NaN NaN NaN) (rows !! i))))).
  - f_equal. unfold numcol. apply list_eq. intros i.
    rewrite !list_lookup_fmap.
    destruct (rows !! i) as [x|] eqn:Hx.
    + rewrite lookup_seq_lt by (by eapply lookup_lt_Some). simpl. by rewrite Hx.
    + rewrite lookup_seq_ge; [done|]. by apply lookup_ge_None_1.
  - intros i [_ Hi]%elem_of_seq.
    destruct (lookup_lt_is_Some_2 rows i) as [x Hx]; [lia|].
    rewrite Hx. simpl. by apply Hf.
Qed.

Lemma row_at_numcol (n : nat) cols col (f : session → float) rows i x :
  cols !! col = Some (numcol f rows) → rows !! i = Some x →
  row_get (row_at (Frame n cols) i) col = Ok (Num (f x)).
Proof.
  intros Hc Hx. unfold row_get, row_at. simpl. rewrite Hc. simpl.
  unfold numcol. rewrite list_lookup_fmap, Hx. done.
Qed.

Ltac find_col :=
  simpl;
  repeat (rewrite lookup_insert_ne by done);
  first [ apply lookup_insert_eq | eassumption ].

Ltac col_length :=
  rewrite ?length_numcol; first [ apply length_sessions | done ].

Ltac step_coerce :=
  erewrite run_bind; [| apply run_coerce_col; [ find_col | done ] ].
Ltac step_get := erewrite run_bind; [| apply run_getitem; find_col ].
Ltac step_set := erewrite run_bind; [| apply run_setitem; col_length ].
Ltac step_op :=
  rewrite ?series_op_numcol, ?scalar_series_op_numcol, ?series_scalar_op_numcol;
  erewrite run_bind; [| reflexivity ].

Lemma get_be_rev_row (n : nat) cols (rows : list session) i x :
  cols !! "商品毛利率" = Some (numcol margin rows) →
  cols !! "場地抽成率" = Some (numcol commission rows) →
  cols !! "固定開銷合計" = Some (numcol (λ x, fixed_cost_total (calc_row x)) rows) →
  rows !! i = Some x →
  get_be_rev (row_at (Frame n cols) i)
  = Ok (Num (breakeven_revenue (calc_row x))).
Proof.
  intros Hm Hc Hf Hx. unfold get_be_rev.
  rewrite (row_at_numcol n cols _ margin rows i x Hm Hx).
  rewrite (row_at_numcol n cols _ commission rows i x Hc Hx).
  cbn [mbind outcome_bind obind as_float].
  unfold calc_row, be_rev. cbn [breakeven_revenue].
  destruct (fgt0 _); [|done].
  rewrite (row_at_numcol n cols _ _ rows i x Hf Hx). done.
Qed.

(** [process_detailed_calc] on a session table returns a new object that
    holds [enrich fr], and changes nothing else. *)
Lemma process_detailed_calc_run (h : heap) (df : loc) (fr : frame) :
  h !! df = Some fr → session_table fr = true →
  process_detailed_calc df h
  = (Ok (fresh (dom h)), <[fresh (dom h) := enrich fr]> h).
Proof.
  intros Hdf Htab.
  destruct (numcol_sessions fr "預估營業額" revenue Htab) as (s1 & H1 & L1 & E1);
    [unfold numeric_cols; set_solver|done|].
  destruct (numcol_sessions fr "商品毛利率" margin Htab) as (s2 & H2 & L2 & E2);
    [unfold numeric_cols; set_solver|done|].
  destruct (numcol_sessions fr "場地租金" rent Htab) as (s3 & H3 & L3 & E3);
    [unfold numeric_cols; set_solver|done|].
  destruct (numcol_sessions fr "現場人事" staffing Htab) as (s4 & H4 & L4 & E4);
    [unfold numeric_cols; set_solver|done|].
  destruct (numcol_sessions fr "水電物流" utilities Htab) as (s5 & H5 & L5 & E5);
    [unfold numeric_cols; set_solver|done|].
  destruct (numcol_sessions fr "該場廣告費" ads Htab) as (s6 & H6 & L6 & E6);
    [unfold numeric_cols; set_solver|done|].
  destruct (numcol_sessions fr "場地抽成率" commission Htab) as (s7 & H7 & L7 & E7);
    [unfold numeric_cols; set_solver|done|].
  unfold enrich. pose proof (length_sessions fr) as Hrows.
  set (rows := sessions fr) in *. clearbody rows.
  destruct fr as [n cols]. simpl in *.
  unfold process_detailed_calc.
  erewrite run_bind; [| by apply run_copy ].
  set (l := fresh (dom h)). clearbody l.
  unfold numeric_cols. cbn [for_each].
  erewrite run_bind.
  2:{ do 7 step_coerce. reflexivity. }
  rewrite E1, E2, E3, E4, E5, E6, E7.
  (* A *) step_get. step_get. step_op. step_set.
  (* B *) step_get. step_get. step_op. step_op. step_set.
  (* C *) step_get. step_get. step_op. step_get. step_op. step_get. step_op.
          step_set.
  (* D *) step_get. step_get. step_op. step_get. step_op. step_set.
  (* E *) erewrite run_bind.
  2:{ apply (run_apply_axis1 _ _ _ _ _ (λ x, breakeven_revenue (calc_row x)) rows);
        [done|].
      intros i x Hx. apply (get_be_rev_row _ _ rows); [find_col..|done]. }
  step_set.
  (* F *) step_get. step_get. step_op. step_get. step_op. step_get. step_op.
          step_get. step_op. step_op. rewrite fillna0_numcol. step_set.
  reflexivity.
Qed.

Lemma lookup_numcol {A} (f : A → float) (rows : list A) (i : nat) :
  numcol f rows !! i ≫= number = f <$> rows !! i.
Proof. unfold numcol. rewrite list_lookup_fmap. by destruct (rows !! i). Qed.

Ltac read_col :=
  unfold cell_at, enrich; cbn [columns];
  repeat (rewrite lookup_insert_ne by done);
  rewrite lookup_insert_eq; cbn [mbind option_bind];
  rewrite lookup_numcol.

Lemma metrics_at_enrich (fr : frame) (i : nat) :
  session_table fr = true →
  metrics_at (enrich fr) i = calc_row <$> session_at fr i.
Proof.
  intros Htab. rewrite <- sessions_lookup by done.
  unfold metrics_at. do 6 read_col.
  by destruct (sessions fr !! i).
Qed.

Lemma stored_session_at_enrich (fr : frame) (i : nat) :
  session_table fr = true →
  stored_session_at (enrich fr) i = session_at fr i.
Proof.
  intros Htab. rewrite <- sessions_lookup by done.
  unfold stored_session_at, read_session. do 7 read_col.
  by destruct (sessions fr !! i) as [[]|].
Qed.

Lemma result_frame_enrich (h : heap) (df : loc) (fr : frame) :
  h !! df = Some fr → session_table fr = true →
  result_frame df h = Some (enrich fr).
Proof.
  intros Hdf Htab. unfold result_frame.
  rewrite (process_detailed_calc_run h df fr Hdf Htab).
  apply lookup_insert_eq.
Qed.

(** The column program computes, for every row, what [calc_row] computes
    from that row alone. *)
Lemma calc_metrics_row (h : heap) (df : loc) (fr : frame) (i : nat) (x : session) :
  h !! df = Some fr → session_table fr = true → session_at fr i = Some x →
  calc_metrics df i h = Some (calc_row x).
Proof.
  intros Hdf Htab Hx. unfold calc_metrics.
  rewrite (result_frame_enrich h df fr Hdf Htab). cbn [mbind option_bind].
  by rewrite metrics_at_enrich, Hx.
Qed.

Lemma summarize_run (l : loc) (fr : frame) (h : heap) :
  summarize l (<[l := enrich fr]> h) = (Ok (summary_of fr), <[l := enrich fr]> h).
Proof.
  unfold summarize, enrich, series_sum, series_mean.
  step_get. rewrite floats_of_numcol. erewrite run_bind; [| reflexivity ].
  step_get. rewrite floats_of_numcol. erewrite run_bind; [| reflexivity ].
  step_get. rewrite floats_of_numcol. erewrite run_bind; [| reflexivity ].
  reflexivity.
Qed.

Lemma run_result (h : heap) (df : loc) (fr : frame) :
  h !! df = Some fr → session_table fr = true →
  run df h = (Ok (fresh (dom h), summary_of fr), <[fresh (dom h) := enrich fr]> h).
Proof.
  intros Hdf Htab. unfold run.
  erewrite run_bind; [| by apply process_detailed_calc_run ].
  erewrite run_bind; [| apply summarize_run ].
  reflexivity.
Qed.

(** ** Float arithmetic *)

Lemma Fin_inj (a b : Qc) : Fin a = Fin b → a = b.
Proof.
  intros H. by apply (f_equal (λ x, match x with Fin q => q | _ => a end)) in H.
Qed.

Lemma is_finite_Fin (x : float) : is_finite x = true → ∃ q, x = Fin q.
Proof. destruct x; [eauto|done..]. Qed.



Lemma Qc_pos_ne0 (q : Qc) : Qc_pos q = true → Qc_is0 q = false.
Proof.
  unfold Qc_pos, Qc_is0. intros Hq%bool_decide_eq_true.
  apply bool_decide_eq_false. intros ->. by apply Qclt_not_eq in Hq.
Qed.




(** ** The per-row formulas *)

(** C4: for every session row, the computed net profit is exactly
    [revenue*margin_rate - revenue*(tax+pkg+commission)
     - (rent+staffing+utilities+ads)], the seven fields taken after
    coercion. *)
Theorem net_profit_formula (h : heap) (df : loc) (fr : frame) (i : nat) (x : session) :
  h !! df = Some fr → session_table fr = true → session_at fr i = Some x →
  ∃ y, calc_metrics df i h = Some y ∧
       net_profit y
       = (revenue x * margin x
          - revenue x * (global_tax_rate + global_pkg_rate + commission x)
          - (rent x + staffing x + utilities x + ads x))%F.
Proof.
  intros Hdf Htab Hx. exists (calc_row x).
  split; [by eapply calc_metrics_row|done].
Qed.



(** ** Plugging the break-even revenue back in *)

Lemma finite_session_Fin (x : session) :
  finite_session x = true →
  ∃ a b c d e f g, x = Session (Fin a) (Fin b) (Fin c) (Fin d) (Fin e) (Fin f) (Fin g).
Proof.
  destruct x as [a b c d e f g]. unfold finite_session. simpl.
  rewrite !andb_true_iff.
  intros [[[[[[[? ->]%is_finite_Fin [? ->]%is_finite_Fin] [? ->]%is_finite_Fin]
    [? ->]%is_finite_Fin] [? ->]%is_finite_Fin] [? ->]%is_finite_Fin]
    [? ->]%is_finite_Fin].
  by repeat eexists.
Qed.









(** ** Cells that are not numbers *)

Lemma non_numeric_coerce (c : cell) : non_numeric c = true → coerce c = fzero.
Proof. unfold non_numeric, coerce, coerce_cell. by intros ->. Qed.

Lemma cell_at_enrich_numeric (fr : frame) (col : string) (i : nat) :
  session_table fr = true → col ∈ numeric_cols →
  cell_at (enrich fr) col i = (λ c, Num (coerce c)) <$> cell_at fr col i.
Proof.
  intros Htab Hin.
  assert (∀ proj,
    (∀ j, proj (Session (coerced_at fr "預估營業額" j) (coerced_at fr "商品毛利率" j)
                (coerced_at fr "場地租金" j) (coerced_at fr "現場人事" j)
                (coerced_at fr "水電物流" j) (coerced_at fr "該場廣告費" j)
                (coerced_at fr "場地抽成率" j)) = coerced_at fr col j) →
    numcol proj (sessions fr) !! i = (λ c, Num (coerce c)) <$> cell_at fr col i)
    as Hcol.
  { intros proj Hproj.
    destruct (numcol_sessions fr col proj Htab Hin Hproj) as (s & Hs & _ & <-).
    rewrite fillna0_to_numeric. unfold cell_at, numcol. rewrite Hs. simpl.
    by rewrite list_lookup_fmap. }
  unfold numeric_cols in Hin.
  repeat (apply elem_of_cons in Hin as [->|Hin]);
    [ | | | | | | | by apply elem_of_nil in Hin ];
    unfold cell_at at 1, enrich; cbn [columns];
    repeat (rewrite lookup_insert_ne by done);
    rewrite lookup_insert_eq; cbn [mbind option_bind];
    by apply Hcol.
Qed.



(** ** Finite outputs *)







(** The three cases of line 101 on finite inputs: the quotient when the
    total cost is not 0; 0 when total cost and net profit are both 0
    ([0/0] is NaN, which [fillna(0)] replaces); an infinity when the total
    cost is 0 and the net profit is not. *)
Lemma roi_percent_cases (x : session) :
  finite_session x = true →
  is_finite global_tax_rate = true → is_finite global_pkg_rate = true →
  (total_cost x (calc_row x) ≠ fzero →
     roi_percent (calc_row x)
     = (net_profit (calc_row x) / total_cost x (calc_row x) * of_Z 100)%F) ∧
  (total_cost x (calc_row x) = fzero → net_profit (calc_row x) = fzero →
     roi_percent (calc_row x) = fzero) ∧
  (total_cost x (calc_row x) = fzero → net_profit (calc_row x) ≠ fzero →
     is_finite (roi_percent (calc_row x)) = false).
Proof.
  intros (rv & m & r & s & u & a & c & ->)%finite_session_Fin
         [t Ht]%is_finite_Fin [p Hp]%is_finite_Fin.
  unfold total_cost, calc_row.
  cbn [revenue margin rent staffing utilities ads commission gross_profit
       variable_cost fixed_cost_total net_profit roi_percent].
  rewrite Ht, Hp. cbn [fadd fmul fsub fneg]. unfold fzero.
  set (net := (rv * m + - (rv * (t + p + c)) + - (r + s + u + a))%Qc).
  set (tc := (rv + - (rv * m) + rv * (t + p + c) + (r + s + u + a))%Qc).
  cbn [fdiv]. unfold Qc_is0, Qc_pos. split_and!.
  - intros Htc. rewrite bool_decide_eq_false_2 by congruence. done.
  - intros Htc%Fin_inj Hnet%Fin_inj. by rewrite !bool_decide_eq_true_2.
  - intros Htc%Fin_inj Hnet. rewrite bool_decide_eq_true_2 by done.
    rewrite (bool_decide_eq_false_2 (net = 0%Qc)) by congruence.
    by destruct (bool_decide _).
Qed.




(** C3 (amended): on an empty session table the pass does not raise and
    gives [total_revenue = 0], [total_net_profit = 0] and an average ROI
    that is NaN (pandas' mean of an empty column). *)
Theorem empty_table_summary (h : heap) (df : loc) (fr : frame) :
  h !! df = Some fr → session_table fr = true → nrows fr = 0 →
  ∃ l h', run df h = (Ok (l, Summary fzero fzero NaN), h').
Proof.
  intros Hdf Htab Hn. eexists _, _.
  rewrite (run_result h df fr Hdf Htab). do 2 f_equal.
  unfold summary_of, sessions. by rewrite Hn.
Qed.

(** ** What the calculator writes *)

Lemma writes_only_ret {A} (l : loc) (a : A) : writes_only l (mret a : py A).
Proof. by intros h l' _. Qed.

Lemma writes_only_lift {A} (l : loc) (o : outcome A) : writes_only l (lift o).
Proof. by intros h l' _. Qed.

Lemma writes_only_bind {A B} (l : loc) (m : py A) (f : A → py B) :
  writes_only l m → (∀ a, writes_only l (f a)) → writes_only l (m ≫= f).
Proof.
  intros Hm Hf h l' Hne. specialize (Hm h l' Hne).
  unfold mbind, py_mbind, py_bind.
  destruct (m h) as [[a|e] h']; simpl in *; [|done].
  by rewrite (Hf a h' l' Hne).
Qed.

Lemma writes_only_getitem (l l0 : loc) (col : string) :
  writes_only l (getitem l0 col).
Proof.
  intros h l' _. unfold getitem.
  destruct (h !! l0) as [fr|]; [|done]. by destruct (columns fr !! col).
Qed.

Lemma writes_only_setitem (l : loc) (col : string) (s : list cell) :
  writes_only l (setitem l col s).
Proof.
  intros h l' Hne. unfold setitem.
  destruct (h !! l) as [fr|]; [|done].
  case_decide; [|done]. simpl. by rewrite lookup_insert_ne.
Qed.

Lemma writes_only_apply_axis1 (l l0 : loc) f : writes_only l (apply_axis1 f l0).
Proof. intros h l' _. unfold apply_axis1. by destruct (h !! l0). Qed.

Lemma writes_only_for_each {A} (l : loc) (xs : list A) (body : A → py unit) :
  (∀ x, writes_only l (body x)) → writes_only l (for_each xs body).
Proof.
  intros Hbody. induction xs as [|x xs IH]; [apply writes_only_ret|].
  cbn [for_each]. apply writes_only_bind; [apply Hbody|by intros _].
Qed.

Ltac writes_only_tac :=
  repeat first
    [ apply writes_only_ret
    | apply writes_only_lift
    | apply writes_only_getitem
    | apply writes_only_setitem
    | apply writes_only_apply_axis1
    | apply writes_only_for_each; intros ?
    | apply writes_only_bind; [| intros ? ] ].

(** C9: [process_detailed_calc] leaves its input table as it was: the
    object [df] holds the same contents after the call as before it,
    whether the call returns or raises. *)
Theorem input_table_unchanged (h : heap) (df : loc) :
  (process_detailed_calc df h).2 !! df = h !! df.
Proof.
  unfold process_detailed_calc, mbind at 1, py_mbind at 1, py_bind at 1.
  unfold copy at 1.
  destruct (h !! df) as [fr|] eqn:Hdf; [|done].
  set (l := fresh (dom h)).
  assert (df ≠ l) as Hne.
  { intros ->. apply (is_fresh (dom h)). by apply elem_of_dom. }
  match goal with
  | |- (?m _).2 !! _ = _ => assert (writes_only l m) as Hw by writes_only_tac
  end.
  rewrite (Hw _ df Hne). by rewrite lookup_insert_ne.
Qed.

(** ** Two runs on the same table *)

Lemma alike_ret {A} (l1 l2 : loc) (R : A → A → Prop) (a1 a2 : A) :
  R a1 a2 → alike l1 l2 R (mret a1) (mret a2).
Proof. by intros HR h1 h2 Hh. Qed.

Lemma alike_lift {A} (l1 l2 : loc) (o : outcome A) :
  alike l1 l2 eq (lift o) (lift o).
Proof. intros h1 h2 Hh. unfold lift. by destruct o. Qed.

Lemma alike_bind {A B} (l1 l2 : loc) (R : A → A → Prop) (R' : B → B → Prop)
    (m1 m2 : py A) (f1 f2 : A → py B) :
  alike l1 l2 R m1 m2 →
  (∀ a1 a2, R a1 a2 → alike l1 l2 R' (f1 a1) (f2 a2)) →
  alike l1 l2 R' (m1 ≫= f1) (m2 ≫= f2).
Proof.
  intros Hm Hf h1 h2 Hh. specialize (Hm h1 h2 Hh).
  unfold mbind, py_mbind, py_bind.
  destruct (m1 h1) as [[a1|e1] h1'], (m2 h2) as [[a2|e2] h2']; try done.
  destruct Hm as [HR Hh']. by apply Hf.
Qed.

Lemma alike_getitem (l1 l2 : loc) (col : string) :
  alike l1 l2 eq (getitem l1 col) (getitem l2 col).
Proof.
  intros h1 h2 Hh. unfold getitem.
  destruct (h2 !! l2) as [fr|] eqn:E; rewrite Hh; [|split; congruence].
  destruct (columns fr !! col); split; congruence.
Qed.

Lemma alike_setitem (l1 l2 : loc) (col : string) (s : list cell) :
  alike l1 l2 eq (setitem l1 col s) (setitem l2 col s).
Proof.
  intros h1 h2 Hh. unfold setitem.
  destruct (h2 !! l2) as [fr|] eqn:E; rewrite Hh; [|split; congruence].
  case_decide; [|split; congruence]. by rewrite !lookup_insert_eq.
Qed.

Lemma alike_apply_axis1 (l1 l2 : loc) f :
  alike l1 l2 eq (apply_axis1 f l1) (apply_axis1 f l2).
Proof.
  intros h1 h2 Hh. unfold apply_axis1.
  destruct (h2 !! l2) as [fr|] eqn:E; rewrite Hh; [|split; congruence].
  destruct (traverse _ _); split; congruence.
Qed.

Lemma alike_for_each {A} (l1 l2 : loc) (xs : list A) (b1 b2 : A → py unit) :
  (∀ x, alike l1 l2 eq (b1 x) (b2 x)) →
  alike l1 l2 eq (for_each xs b1) (for_each xs b2).
Proof.
  intros Hb. induction xs as [|x xs IH]; [by apply alike_ret|].
  cbn [for_each]. eapply alike_bind; [apply Hb|by intros _ _ _].
Qed.

Ltac alike_tac :=
  lazymatch goal with
  | |- alike _ _ _ (lift _) _ => apply alike_lift
  | |- alike _ _ _ (getitem _ _) _ => apply alike_getitem
  | |- alike _ _ _ (setitem _ _ _) _ => apply alike_setitem
  | |- alike _ _ _ (apply_axis1 _ _) _ => apply alike_apply_axis1
  | |- alike _ _ _ (for_each _ _) _ =>
      apply alike_for_each; intros ?; alike_tac
  | |- alike _ _ _ (mret _) _ => apply alike_ret; done
  | |- alike _ _ _ (_ ≫= _) _ =>
      eapply alike_bind; [ alike_tac | intros ? ? <-; alike_tac ]
  end.

Lemma py_bind_unfold {A B} (m : py A) (f : A → py B) (h : heap) :
  (m ≫= f) h = match m h with
               | (Ok a, h') => f a h'
               | (Raise e, h') => (Raise e, h')
               end.
Proof. done. Qed.

(** C8: two passes over tables with the same contents, with the same
    rates, give the same enriched table and the same three summary
    figures (or raise the same exception), whatever else the two heaps
    hold and wherever the tables live. *)
Theorem calculator_deterministic (h1 h2 : heap) (df1 df2 : loc) :
  h1 !! df1 = h2 !! df2 →
  observe (run df1 h1) = observe (run df2 h2).
Proof.
  intros Hdf.
  unfold run. rewrite !py_bind_unfold.
  unfold process_detailed_calc. rewrite !py_bind_unfold.
  unfold copy. rewrite Hdf.
  destruct (h2 !! df2) as [fr|]; [|done]. cbv beta iota.
  set (l1 := fresh (dom h1)). set (l2 := fresh (dom h2)).
  match goal with
  | |- observe (match ?m1 ?g1 with _ => _ end)
       = observe (match ?m2 ?g2 with _ => _ end) =>
      assert (alike l1 l2 (λ a1 a2, a1 = l1 ∧ a2 = l2) m1 m2) as Hbody;
      [ alike_tac |];
      specialize (Hbody g1 g2); destruct (m1 g1) as [[a1|e1] g1'], (m2 g2) as [[a2|e2] g2']
  end.
  all: rewrite ?lookup_insert_eq in Hbody; specialize (Hbody eq_refl); try done.
  - destruct Hbody as [[-> ->] Hg].
    assert (alike l1 l2 eq (summarize l1) (summarize l2)) as Hsum
      by (unfold summarize; alike_tac).
    specialize (Hsum g1' g2' Hg).
    unfold mbind, py_mbind, py_bind.
    destruct (summarize l1 g1') as [[s1|e1] g1''], (summarize l2 g2') as [[s2|e2] g2''];
      try done.
    + destruct Hsum as [-> Hg']. simpl. by rewrite Hg'.
    + destruct Hsum as [-> _]. done.
  - destruct Hbody as [-> _]. done.
Qed.

(** ** A table that lacks a numeric column *)

Lemma run_bind_raise {A B} (m : py A) (f : A → py B) (h h' : heap) (e : exn) :
  m h = (Raise e, h') → (m ≫= f) h = (Raise e, h').
Proof. intros Hm. unfold mbind, py_mbind, py_bind. by rewrite Hm. Qed.

Lemma run_getitem_missing (l : loc) n cols (h : heap) (col : string) :
  cols !! col = None →
  getitem l col (<[l := Frame n cols]> h)
  = (Raise (KeyError col), <[l := Frame n cols]> h).
Proof. intros Hs. unfold getitem. rewrite lookup_insert_eq. simpl. by rewrite Hs. Qed.

Lemma valid_frame_col (fr : frame) (col : string) (s : list cell) :
  valid_frame fr = true → columns fr !! col = Some s → length s = nrows fr.
Proof.
  unfold valid_frame. rewrite forallb_forall. intros Hall Hs.
  specialize (Hall (col, s)). eapply bool_decide_eq_true_1, Hall.
  apply list_elem_of_In. by apply elem_of_map_to_list.
Qed.

(** The coercion loop stops at the first column it does not find. *)
Lemma coerce_loop_raises (l : loc) (n : nat) (h : heap) (cs : list string)
    (c : string) (cols : gmap string (list cell)) :
  (∀ col s, cols !! col = Some s → length s = n) →
  find (λ col, bool_decide (cols !! col = None)) cs = Some c →
  ∃ cols',
    for_each cs (λ col, s ← getitem l col;
                        setitem l col (fillna0 (to_numeric s)))
      (<[l := Frame n cols]> h)
    = (Raise (KeyError c), <[l := Frame n cols']> h).
Proof.
  revert cols. induction cs as [|c' cs IH]; intros cols Hlen Hfind; [done|].
  cbn [find] in Hfind. cbn [for_each].
  destruct (cols !! c') as [s|] eqn:Hc'.
  - rewrite bool_decide_eq_false_2 in Hfind by done.
    erewrite run_bind; [| apply run_coerce_col; [done|by eapply Hlen] ].
    apply IH.
    + intros col s' Hs'. destruct (decide (c' = col)) as [->|Hne].
      * rewrite lookup_insert_eq in Hs'. injection Hs' as <-.
        rewrite fillna0_to_numeric, length_numcol. by eapply Hlen.
      * rewrite lookup_insert_ne in Hs' by done. by eapply Hlen.
    + rewrite <- Hfind. clear -Hc'. induction cs as [|x cs IHcs]; [done|].
      cbn [find]. rewrite IHcs. rewrite lookup_insert.
      case_decide as Hx; [|done]. subst x.
      by rewrite Hc', !bool_decide_eq_false_2.
  - rewrite bool_decide_eq_true_2 in Hfind by done. injection Hfind as <-.
    exists cols. apply run_bind_raise, run_bind_raise.
    by apply run_getitem_missing.
Qed.

Lemma no_missing_session_table (fr : frame) :
  valid_frame fr = true → first_missing fr = None → session_table fr = true.
Proof.
  intros Hval Hnone. unfold session_table. apply forallb_forall.
  intros col Hin. pose proof (find_none _ _ Hnone col Hin) as Hcol.
  apply bool_decide_eq_false in Hcol.
  destruct (columns fr !! col) as [s|] eqn:Hs; [|done].
  apply bool_decide_eq_true. by eapply valid_frame_col.
Qed.

(** X1: on a table whose columns all fit its index, the calculator
    returns when the seven numeric columns are there, and otherwise
    raises [KeyError] for the first missing one, in the order of
    [numeric_cols]; it raises nothing else. *)
Theorem missing_column_raises_KeyError (h : heap) (df : loc) (fr : frame) :
  h !! df = Some fr → valid_frame fr = true →
  match first_missing fr with
  | Some c => (process_detailed_calc df h).1 = Raise (KeyError c)
  | None => ∃ l, (process_detailed_calc df h).1 = Ok l
  end.
Proof.
  intros Hdf Hval. destruct (first_missing fr) as [c|] eqn:Hmiss.
  - unfold process_detailed_calc.
    erewrite run_bind; [| by apply run_copy ].
    destruct fr as [n cols].
    destruct (coerce_loop_raises (fresh (dom h)) n h numeric_cols c cols)
      as [cols' Hloop]; [|done|].
    { intros col s Hs. by apply (valid_frame_col (Frame n cols) col s). }
    by erewrite run_bind_raise.
  - eexists.
    by rewrite (process_detailed_calc_run h df fr Hdf
                  (no_missing_session_table fr Hval Hmiss)).
Qed.

(** ** The shape of the returned table *)

Lemma not_in_cols_ne (col : string) :
  col ∉ numeric_cols → col ∉ derived_cols →
  ∀ c, c ∈ (numeric_cols ++ derived_cols)%list → c ≠ col.
Proof.
  intros Hn Hd c [Hc|Hc]%elem_of_app <-; [by apply Hn|by apply Hd].
Qed.

(** X2: the returned table has as many rows as the input, the input's
    columns plus the six derived ones, and every column other than the
    seven numeric and six derived ones (the session names, say) as the
    input has it. *)
Theorem result_table_shape (h : heap) (df : loc) (fr : frame) :
  h !! df = Some fr → session_table fr = true →
  ∃ fr', result_frame df h = Some fr' ∧
         nrows fr' = nrows fr ∧
         dom (columns fr') = dom (columns fr) ∪ list_to_set derived_cols ∧
         (∀ col, col ∉ numeric_cols → col ∉ derived_cols →
                 columns fr' !! col = columns fr !! col).
Proof.
  intros Hdf Htab. exists (enrich fr). split_and!.
  - by apply result_frame_enrich.
  - done.
  - assert (∀ col, col ∈ numeric_cols → col ∈ dom (columns fr)) as Hin.
    { intros col Hcol.
      destruct (session_table_col fr col Htab Hcol) as (s & Hs & _).
      apply elem_of_dom. by exists s. }
    unfold enrich. cbn [columns]. rewrite !dom_insert_L.
    unfold derived_cols. cbn [list_to_set foldr].
    assert ("預估營業額" ∈ dom (columns fr)) as Hd1 by (apply Hin; set_solver).
    assert ("商品毛利率" ∈ dom (columns fr)) as Hd2 by (apply Hin; set_solver).
    assert ("場地租金" ∈ dom (columns fr)) as Hd3 by (apply Hin; set_solver).
    assert ("現場人事" ∈ dom (columns fr)) as Hd4 by (apply Hin; set_solver).
    assert ("水電物流" ∈ dom (columns fr)) as Hd5 by (apply Hin; set_solver).
    assert ("該場廣告費" ∈ dom (columns fr)) as Hd6 by (apply Hin; set_solver).
    assert ("場地抽成率" ∈ dom (columns fr)) as Hd7 by (apply Hin; set_solver).
    clear Hin Hdf Htab.
    apply set_eq. intros x.
    rewrite !elem_of_union, !elem_of_singleton, elem_of_empty.
    split; [|tauto].
    intros Hx. repeat (destruct Hx as [->|Hx]; [tauto|]). tauto.
  - intros col Hn Hd. pose proof (not_in_cols_ne col Hn Hd) as Hne.
    unfold enrich. cbn [columns].
    repeat (rewrite lookup_insert_ne
              by (apply Hne, list_elem_of_In; cbn;
                  repeat (first [ by left | right ]))).
    done.
Qed.

(** ** Running the calculator on its own output *)

Lemma coerce_not_nan (c : cell) : is_nan (coerce c) = false.
Proof.
  unfold coerce, coerce_cell.
  destruct c as [x|s|]; simpl; [by destruct x| |done].
  by destruct (default NaN (str_to_float s)).
Qed.

Lemma coerce_idem (c : cell) : coerce (Num (coerce c)) = coerce c.
Proof.
  pose proof (coerce_not_nan c) as Hc.
  unfold coerce at 1, coerce_cell. simpl. by rewrite Hc.
Qed.

Lemma session_table_enrich (fr : frame) :
  session_table (enrich fr) = true.
Proof.
  unfold session_table, numeric_cols. cbn [forallb].
  unfold enrich. cbn [columns nrows].
  repeat (rewrite lookup_insert_ne by done).
  repeat (rewrite lookup_insert_eq, length_numcol, length_sessions,
            bool_decide_eq_true_2 by done;
          try rewrite lookup_insert_ne by done;
          repeat (rewrite lookup_insert_ne by done)).
  done.
Qed.

Lemma session_at_enrich (fr : frame) (i : nat) :
  session_table fr = true → session_at (enrich fr) i = session_at fr i.
Proof.
  intros Htab. unfold session_at, read_session.
  rewrite !cell_at_enrich_numeric by (done || unfold numeric_cols; set_solver).
  repeat match goal with
         | |- context [cell_at fr ?col i] =>
             destruct (cell_at fr col i); cbn [fmap option_fmap option_map
                                              mbind option_bind]; [|done]
         end.
  by rewrite !coerce_idem.
Qed.

Lemma sessions_enrich (fr : frame) :
  session_table fr = true → sessions (enrich fr) = sessions fr.
Proof.
  intros Htab. apply list_eq. intros i.
  rewrite !sessions_lookup by (done || apply session_table_enrich).
  by apply session_at_enrich.
Qed.

Lemma enrich_idem (fr : frame) :
  session_table fr = true → enrich (enrich fr) = enrich fr.
Proof.
  intros Htab. unfold enrich at 1. rewrite sessions_enrich by done.
  cbn zeta. unfold enrich. cbn [nrows columns]. f_equal.
  repeat (rewrite insert_id;
          [| repeat (rewrite lookup_insert_ne by done); apply lookup_insert_eq ]).
  done.
Qed.

(** X3: the calculator run on a table it has returned returns a table
    with the same contents: coercion finds nothing left to coerce and the
    derived columns are recomputed to the values they hold. *)
Theorem calculator_idempotent (h : heap) (df : loc) (fr : frame) :
  h !! df = Some fr → session_table fr = true →
  ∃ fr', result_frame df h = Some fr' ∧
         ∀ (h2 : heap) (df2 : loc),
           h2 !! df2 = Some fr' → result_frame df2 h2 = Some fr'.
Proof.
  intros Hdf Htab. exists (enrich fr).
  split; [by apply result_frame_enrich|]. intros h2 df2 Hdf2.
  rewrite (result_frame_enrich h2 df2 (enrich fr) Hdf2 (session_table_enrich fr)).
  by rewrite enrich_idem.
Qed.

(** ** What the returned table never holds *)

Lemma session_at_nan_free (fr : frame) (i : nat) (x : session) :
  session_at fr i = Some x → nan_free x = true.
Proof.
  unfold session_at, read_session. intros Hx.
  repeat match type of Hx with
         | context [cell_at fr ?col i] =>
             destruct (cell_at fr col i); cbn [mbind option_bind] in Hx; [|done]
         end.
  injection Hx as <-. unfold nan_free.
  cbn [revenue margin rent staffing utilities ads commission].
  by rewrite !coerce_not_nan.
Qed.

Lemma roi_not_nan (x : session) : is_nan (roi_percent (calc_row x)) = false.
Proof.
  unfold calc_row. cbn [roi_percent]. unfold nan_to_zero.
  match goal with
  | |- context [if is_nan ?v then _ else _] => by destruct v
  end.
Qed.

(** X8: whatever the cells of the input hold (text, blanks, NaN,
    infinities) and whatever the rates, no row of the returned table has a
    NaN in one of its seven numeric fields or in its ROI. *)
Theorem no_nan_in_fields_and_roi (h : heap) (df : loc) (fr : frame) :
  h !! df = Some fr → session_table fr = true →
  ∃ fr', result_frame df h = Some fr' ∧
         ∀ i, i < nrows fr →
           ∃ x y, stored_session_at fr' i = Some x ∧
                  metrics_at fr' i = Some y ∧
                  nan_free x = true ∧ is_nan (roi_percent y) = false.
Proof.
  intros Hdf Htab. exists (enrich fr).
  split; [by apply result_frame_enrich|]. intros i Hi.
  destruct (session_at_is_Some fr i Htab Hi) as [x Hx].
  exists x, (calc_row x).
  rewrite stored_session_at_enrich, metrics_at_enrich, Hx by done.
  split_and!; [done..| |apply roi_not_nan]. by eapply session_at_nan_free.
Qed.

(** ** The returned object *)

Lemma returns_only_ret {A} (a : A) : returns_only a (mret a : py A).
Proof. intros h h' v [= <- _]. done. Qed.

Lemma returns_only_bind {A B} (b : B) (m : py A) (f : A → py B) :
  (∀ a, returns_only b (f a)) → returns_only b (m ≫= f).
Proof.
  intros Hf h h' v. unfold mbind, py_mbind, py_bind.
  destruct (m h) as [[a|e] h1]; [|done]. apply Hf.
Qed.

(** X10: the table the calculator returns is a new object, none of those
    that existed before the call (so never the input itself), and every
    object that existed before the call holds what it held, whether the
    call returns or raises. *)
Theorem result_is_a_new_object (h : heap) (df : loc) :
  (∀ l, l ∈ dom h →
        (process_detailed_calc df h).2 !! l = h !! l) ∧
  (∀ l, (process_detailed_calc df h).1 = Ok l → l ∉ dom h).
Proof.
  destruct (process_detailed_calc df h) as [o h'] eqn:Hrun. cbn [fst snd].
  unfold process_detailed_calc in Hrun. rewrite py_bind_unfold in Hrun.
  unfold copy in Hrun.
  destruct (h !! df) as [fr|] eqn:Hdf.
  2:{ injection Hrun as <- <-. by split. }
  set (l0 := fresh (dom h)) in Hrun.
  assert (l0 ∉ dom h) as Hfresh by apply is_fresh.
  match type of Hrun with
  | ?m ?g = _ =>
      assert (writes_only l0 m) as Hw by writes_only_tac;
      assert (returns_only l0 m) as Hr
        by (repeat (apply returns_only_bind; intros ?); apply returns_only_ret);
      specialize (Hw g); specialize (Hr g); rewrite Hrun in Hw
  end.
  split.
  - intros l Hl. cbn [snd] in Hw. rewrite Hw by (by intros ->).
    apply lookup_insert_ne. by intros <-.
  - intros l ->. by rewrite (Hr h' l Hrun).
Qed.

(** ** A row the editor has just added *)

Lemma blank_at_session (fr : frame) (i : nat) (x : session) :
  blank_at fr i = true → session_at fr i = Some x → x = blank_session.
Proof.
  unfold blank_at, numeric_cols, session_at, read_session.
  cbn [forallb]. rewrite !andb_true_iff.
  intros (H1 & H2 & H3 & H4 & H5 & H6 & H7 & _) Hx.
  repeat match type of Hx with
         | context [cell_at fr ?col i] =>
             destruct (cell_at fr col i); cbn [mbind option_bind] in Hx; [|done]
         end.
  injection Hx as <-. unfold blank_session.
  by rewrite !non_numeric_coerce.
Qed.

Lemma calc_row_blank :
  is_finite global_tax_rate = true → is_finite global_pkg_rate = true →
  calc_row blank_session = Metrics fzero fzero fzero fzero fzero fzero.
Proof.
  intros [t Ht]%is_finite_Fin [p Hp]%is_finite_Fin.
  unfold calc_row, be_rev, blank_session, fzero.
  cbn [revenue margin rent staffing utilities ads commission].
  rewrite Ht, Hp. cbn [fadd fmul fsub fneg fgt0].
  assert (∀ a b : Qc, a = 0%Qc → b = 0%Qc → Fin a = Fin b) as Hz
    by (by intros a b -> ->).
  f_equal; try (apply Hz; ring).
  destruct (Qc_pos _) eqn:Hpos; [|done].
  cbn [fdiv]. rewrite (Qc_pos_ne0 _ Hpos). apply Hz; [|done].
  unfold Qcdiv. ring.
Qed.

(** X7: a row whose seven numeric cells all hold nothing that reads as a
    number (a row just added in the editor) gets 0 in all six derived
    fields, for any finite rates: in particular its ROI is [0/0], which
    [fillna(0)] turns into 0. *)
Theorem blank_row_is_all_zero (h : heap) (df : loc) (fr : frame) (i : nat) :
  h !! df = Some fr → session_table fr = true → i < nrows fr →
  blank_at fr i = true →
  is_finite global_tax_rate = true → is_finite global_pkg_rate = true →
  calc_metrics df i h = Some (Metrics fzero fzero fzero fzero fzero fzero).
Proof.
  intros Hdf Htab Hi Hblank Ht Hp.
  destruct (session_at_is_Some fr i Htab Hi) as [x Hx].
  rewrite (calc_metrics_row h df fr i x Hdf Htab Hx).
  rewrite (blank_at_session fr i x Hblank Hx). by rewrite calc_row_blank.
Qed.

(** ** Costs, revenue and profit *)









(** ** Adding a blank row *)








(** ** Rows do not influence one another *)


(** ** Changing the unit of the amounts *)











End Calculator.

(** ** Concrete tables *)

(** Two finite floats are equal when their fractions are. *)
Lemma Fin_eq (q q' : Qc) : (this q == this q')%Q → Fin q = Fin q'.
Proof. intros Hq. f_equal. by apply Qc_is_canon. Qed.

Ltac float_eq := vm_compute; apply Fin_eq; vm_compute; reflexivity.

(** C1: on [zero_cost_table] with both rates 0 the total cost is 0 and
    the net profit is 100; the ROI the calculator stores is [+inf], not
    0: [fillna(0)] replaces NaN only. *)
Theorem roi_infinite_at_zero_total_cost :
  session_table zero_cost_table = true ∧
  session_at no_text zero_cost_table 0 = Some consignment ∧
  ∃ y, calc_metrics no_text zero_rate zero_rate 1%positive 0
         (heap_of zero_cost_table) = Some y ∧
       total_cost consignment y = fzero ∧
       net_profit y = of_Z 100 ∧
       roi_percent y = PInf.
Proof.
  split; [vm_compute; reflexivity|]. split; [vm_compute; reflexivity|].
  exists (calc_row zero_rate zero_rate consignment). split_and!.
  - apply (calc_metrics_row no_text zero_rate zero_rate _ _ zero_cost_table);
      vm_compute; reflexivity.
  - float_eq.
  - float_eq.
  - vm_compute. reflexivity.
Qed.

(** Closes a goal that holds by evaluation. *)
Ltac by_eval := vm_compute; reflexivity.

(** [net_profit_formula] on the first row of the starting table. *)
Lemma net_profit_formula_witness :
  heap_of df_special !! 1%positive = Some df_special ∧
  session_table df_special = true ∧
  session_at no_text df_special 0 = Some taipei_a ∧
  ∃ y, calc_metrics no_text default_tax_rate default_pkg_rate 1%positive 0
         (heap_of df_special) = Some y ∧
       net_profit y
       = (revenue taipei_a * margin taipei_a
          - revenue taipei_a
            * (default_tax_rate + default_pkg_rate + commission taipei_a)
          - (rent taipei_a + staffing taipei_a + utilities taipei_a
             + ads taipei_a))%F.
Proof.
  split; [by_eval|]. split; [by_eval|]. split; [by_eval|].
  apply (net_profit_formula no_text default_tax_rate default_pkg_rate
           (heap_of df_special) 1%positive df_special 0 taipei_a); by_eval.
Defined.





(** [calculator_deterministic] on the starting table, once alone on the
    heap at location 1 and once at location 7 next to another table. *)
Lemma calculator_deterministic_witness :
  heap_of df_special !! 1%positive
  = (<[7%positive := df_special]> (heap_of empty_table)) !! 7%positive ∧
  observe (run no_text default_tax_rate default_pkg_rate 1%positive
             (heap_of df_special))
  = observe (run no_text default_tax_rate default_pkg_rate 7%positive
               (<[7%positive := df_special]> (heap_of empty_table))).
Proof.
  split; [by_eval|].
  apply (calculator_deterministic no_text default_tax_rate default_pkg_rate
           (heap_of df_special) (<[7%positive := df_special]> (heap_of empty_table))
           1%positive 7%positive); by_eval.
Defined.


(** [empty_table_summary] on the table without sessions. *)
Lemma empty_table_summary_witness :
  heap_of empty_table !! 1%positive = Some empty_table ∧
  session_table empty_table = true ∧
  nrows empty_table = 0 ∧
  ∃ l h', run no_text default_tax_rate default_pkg_rate 1%positive
            (heap_of empty_table)
          = (Ok (l, Summary fzero fzero NaN), h').
Proof.
  do 3 (split; [by_eval|]).
  apply (empty_table_summary no_text default_tax_rate default_pkg_rate
           (heap_of empty_table) 1%positive empty_table); by_eval.
Defined.


(** C3, as stated, fails: with no sessions the two totals are 0 but the
    average ROI is NaN, not 0. *)
Lemma empty_table_average_is_not_zero :
  ∃ l s h',
    run no_text default_tax_rate default_pkg_rate 1%positive
      (heap_of empty_table) = (Ok (l, s), h') ∧
    total_rev s = fzero ∧ total_net s = fzero ∧
    avg_roi s = NaN ∧ avg_roi s ≠ fzero.
Proof.
  eexists _, _, _. split.
  - apply (run_result no_text default_tax_rate default_pkg_rate _ _ empty_table);
      by_eval.
  - split_and!; [by_eval..|]. by_eval || (vm_compute; discriminate).
Qed.

(** ** Further properties on concrete tables *)

(** [missing_column_raises_KeyError] on the starting table without its
    水電物流 and 場地抽成率 columns. *)
Lemma missing_column_raises_KeyError_witness :
  heap_of two_columns_short !! 1%positive = Some two_columns_short ∧
  valid_frame two_columns_short = true ∧
  match first_missing two_columns_short with
  | Some c =>
      (process_detailed_calc no_text default_tax_rate default_pkg_rate
         1%positive (heap_of two_columns_short)).1 = Raise (KeyError c)
  | None =>
      ∃ l, (process_detailed_calc no_text default_tax_rate default_pkg_rate
              1%positive (heap_of two_columns_short)).1 = Ok l
  end.
Proof.
  do 2 (split; [by_eval|]).
  apply (missing_column_raises_KeyError no_text default_tax_rate
           default_pkg_rate (heap_of two_columns_short) 1%positive
           two_columns_short); by_eval.
Defined.

(** [result_table_shape] on the starting table. *)
Lemma result_table_shape_witness :
  heap_of df_special !! 1%positive = Some df_special ∧
  session_table df_special = true ∧
  ∃ fr', result_frame no_text default_tax_rate default_pkg_rate 1%positive
           (heap_of df_special) = Some fr' ∧
         nrows fr' = nrows df_special ∧
         dom (columns fr') = dom (columns df_special) ∪ list_to_set derived_cols ∧
         (∀ col, col ∉ numeric_cols → col ∉ derived_cols →
                 columns fr' !! col = columns df_special !! col).
Proof.
  do 2 (split; [by_eval|]).
  apply (result_table_shape no_text default_tax_rate default_pkg_rate
           (heap_of df_special) 1%positive df_special); by_eval.
Defined.

(** [calculator_idempotent] on the starting table. *)
Lemma calculator_idempotent_witness :
  heap_of df_special !! 1%positive = Some df_special ∧
  session_table df_special = true ∧
  ∃ fr', result_frame no_text default_tax_rate default_pkg_rate 1%positive
           (heap_of df_special) = Some fr' ∧
         ∀ (h2 : gmap positive frame) (df2 : positive),
           h2 !! df2 = Some fr' →
           result_frame no_text default_tax_rate default_pkg_rate df2 h2
           = Some fr'.
Proof.
  do 2 (split; [by_eval|]).
  apply (calculator_idempotent no_text default_tax_rate default_pkg_rate
           (heap_of df_special) 1%positive df_special); by_eval.
Defined.




(** [blank_row_is_all_zero] on the row added to the starting table. *)
Lemma blank_row_is_all_zero_witness :
  heap_of (append_blank df_special) !! 1%positive
  = Some (append_blank df_special) ∧
  session_table (append_blank df_special) = true ∧
  2 < nrows (append_blank df_special) ∧
  blank_at no_text (append_blank df_special) 2 = true ∧
  is_finite default_tax_rate = true ∧ is_finite default_pkg_rate = true ∧
  calc_metrics no_text default_tax_rate default_pkg_rate 1%positive 2
    (heap_of (append_blank df_special))
  = Some (Metrics fzero fzero fzero fzero fzero fzero).
Proof.
  do 2 (split; [by_eval|]). split; [vm_compute; lia|].
  do 3 (split; [by_eval|]).
  apply (blank_row_is_all_zero no_text default_tax_rate default_pkg_rate
           (heap_of (append_blank df_special)) 1%positive
           (append_blank df_special) 2); first [ by_eval | vm_compute; lia ].
Defined.

(** [no_nan_in_fields_and_roi] on the table with a blank revenue and
    text in a numeric cell. *)
Lemma no_nan_in_fields_and_roi_witness :
  heap_of blank_revenue_table !! 1%positive = Some blank_revenue_table ∧
  session_table blank_revenue_table = true ∧
  ∃ fr', result_frame no_text default_tax_rate default_pkg_rate 1%positive
           (heap_of blank_revenue_table) = Some fr' ∧
         ∀ i, i < nrows blank_revenue_table →
           ∃ x y, stored_session_at fr' i = Some x ∧
                  metrics_at fr' i = Some y ∧
                  nan_free x = true ∧ is_nan (roi_percent y) = false.
Proof.
  do 2 (split; [by_eval|]).
  apply (no_nan_in_fields_and_roi no_text default_tax_rate default_pkg_rate
           (heap_of blank_revenue_table) 1%positive blank_revenue_table);
    by_eval.
Defined.





